(** * Smart attendance dashboard client: [static/js/main.js]

    A shallow embedding of the browser script that logs an administrator
    in, guards the protected pages, loads and renders the attendance
    table, filters the rendered rows and exports the report.

    The script runs against three pieces of browser state: [localStorage]
    (the credential store), the elements of the page looked up by id, and
    the outside world (navigation, network, dialogs, console).  The first
    two are finite maps; the third is a trace of effects in program order.
    An [async] function runs up to its request and is resumed with the
    answer of the network. *)

From Stdlib Require Import Ascii.
From stdpp Require Import base option list strings pretty gmap.

Local Open Scope string_scope.
Local Set Warnings "-register-all".

(** ** JavaScript values *)

(** A number, carried by the two things this script observes of one:
    whether it is zero (what [!x], [x || y] and [x === 0] ask of a number
    that [JSON.parse] produced) and the text [ToString] gives it. *)
Record numeral : Type := Numeral {
  zero : bool;
  digits : string;
}.

(** The length of an array or of a string, as a number. *)
Definition number_of_length (n : nat) : numeral := Numeral (n =? 0)%nat (pretty n).

(** Values produced by [JSON.parse]. *)
Inductive json : Type :=
| JNull
| JBool (b : bool)
| JNum (n : numeral)
| JStr (s : string)
| JArr (items : list json)
| JObj (props : list (string * json)).

(** A value read out of an object: [None] is [undefined]. *)
Abbreviation value := (option json).

(** What the script can throw.  [NetworkError] is the rejection of
    [fetch] when no response is received, kept apart from the
    [TypeError]s raised by the script's own evaluation. *)
Inductive exn : Type :=
| TypeError
| SyntaxError
| NetworkError
| Error (message : string).

(** How an evaluation ends: with a value, or by throwing. *)
Inductive completion (A : Type) : Type :=
| Normal (a : A)
| Throw (e : exn).
Arguments Normal {A} a.
Arguments Throw {A} e.

#[global] Instance completion_ret : MRet completion := λ A a, Normal a.

#[global] Instance completion_bind : MBind completion := λ A B f m,
  match m with
  | Normal a => f a
  | Throw e => Throw e
  end.

Fixpoint own_property (key : string) (props : list (string * json)) : value :=
  match props with
  | [] => None
  | (k, v) :: rest => if String.eqb k key then Some v else own_property key rest
  end.

(** [o.key] for the data properties this script reads ([length] is the
    only one arrays and strings answer); reading a property of [null]
    throws. *)
Definition get (o : json) (key : string) : completion value :=
  match o with
  | JNull => Throw TypeError
  | JObj props => Normal (own_property key props)
  | JArr items =>
      Normal (if String.eqb key "length" then Some (JNum (number_of_length (length items)))
              else None)
  | JStr s =>
      Normal (if String.eqb key "length" then Some (JNum (number_of_length (String.length s)))
              else None)
  | JBool _ | JNum _ => Normal None
  end.

(** Truthiness, as tested by [!x] and [x || y]. *)
Definition truthy (v : value) : bool :=
  match v with
  | None | Some JNull => false
  | Some (JBool b) => b
  | Some (JNum n) => negb (zero n)
  | Some (JStr s) => negb (String.eqb s "")
  | Some (JArr _) | Some (JObj _) => true
  end.

(** [a || b] *)
Definition or_else (a b : value) : value := if truthy a then a else b.

(** [ToString] of a parsed value, as a template literal or a string
    concatenation applies it.  An array joins its elements with commas,
    printing [null] elements as nothing; a plain object prints as
    [[object Object]], unless it carries an own [toString] property, which
    parsed data cannot make callable, and then the conversion throws. *)
Fixpoint ToString (j : json) : completion string :=
  match j with
  | JNull => Normal "null"
  | JBool b => Normal (if b then "true" else "false")
  | JNum n => Normal (digits n)
  | JStr s => Normal s
  | JArr items =>
      (fix join (l : list json) : completion string :=
         match l with
         | [] => Normal ""
         | x :: rest =>
             let item := match x with JNull => Normal "" | _ => ToString x end in
             match rest with
             | [] => item
             | _ :: _ =>
                 match item with
                 | Normal s =>
                     match join rest with
                     | Normal r => Normal (s +:+ "," +:+ r)
                     | Throw e => Throw e
                     end
                 | Throw e => Throw e
                 end
             end
         end) items
  | JObj props =>
      match own_property "toString" props with
      | Some _ => Throw TypeError
      | None => Normal "[object Object]"
      end
  end.

(** [ToString] of a possibly undefined value. *)
Definition ToString_value (v : value) : completion string :=
  match v with
  | None => Normal "undefined"
  | Some j => ToString j
  end.

(** [x === 0] *)
Definition is_zero (v : value) : bool :=
  match v with
  | Some (JNum n) => zero n
  | _ => false
  end.

(** Truthiness of what [localStorage.getItem] returns: a string or [null]. *)
Definition truthy_item (item : option string) : bool :=
  match item with
  | None => false
  | Some s => negb (String.eqb s "")
  end.

(** ** The network, as seen through [fetch] *)

(** A response that arrived.  [text], [parsed] and [blob] are what
    [res.text()], [res.json()] and [res.blob()] resolve to, [None] when
    the promise rejects. *)
Record response : Type := Response {
  status : nat;
  text : option string;
  parsed : option json;
  blob : option string;
}.

(** [res.ok] *)
Definition ok (res : response) : bool :=
  (200 <=? status res)%nat && (status res <=? 299)%nat.

(** What [await fetch(...)] produces: a response, or a rejection when no
    response was received. *)
Inductive fetched : Type :=
| Unreachable
| Responded (res : response).

(** A request handed to [fetch].  [body] holds the fields appended to the
    [URLSearchParams] the script sends, before their url-encoding. *)
Record request : Type := Request {
  method : string;
  url : string;
  headers : list (string * string);
  body : option (list (string * string));
}.

(** ** Page state and effects *)

Inductive event : Type :=
| Navigate (href : string)
| Fetch (req : request)
| SetContent (id content : string)
| Alert (message : string)
| ConsoleError (label : string) (e : exn)
| Download (filename content : string).

(** [elements] maps the id of each element of the page to the content the
    script reads or assigns through it ([textContent], [innerHTML] or
    [value]); an id outside the map is an element the page does not have. *)
Record page : Type := Page {
  localStorage : gmap string string;
  elements : gmap string string;
  trace : list event;
}.

(** A computation of the script: it completes normally or throws, and
    leaves a page state behind either way. *)
Definition js (A : Type) : Type := page -> completion A * page.

#[global] Instance js_ret : MRet js := λ A a p, (Normal a, p).

#[global] Instance js_bind : MBind js := λ A B f m p,
  match m p with
  | (Normal a, p') => f a p'
  | (Throw e, p') => (Throw e, p')
  end.

Definition throw {A : Type} (e : exn) : js A := λ p, (Throw e, p).

(** [try { body } catch (error) { handler }] *)
Definition try_catch {A : Type} (body : js A) (handler : exn -> js A) : js A := λ p,
  match body p with
  | (Normal a, p') => (Normal a, p')
  | (Throw e, p') => handler e p'
  end.

(** Lift a pure step that may throw. *)
Definition lift {A : Type} (r : completion A) : js A := λ p, (r, p).

Definition emit (e : event) : js unit := λ p,
  (Normal tt, Page (localStorage p) (elements p) (trace p ++ [e])).

Definition getItem (key : string) : js (option string) := λ p,
  (Normal (localStorage p !! key), p).

Definition setItem (key item : string) : js unit := λ p,
  (Normal tt, Page (<[key := item]> (localStorage p)) (elements p) (trace p)).

Definition removeItem (key : string) : js unit := λ p,
  (Normal tt, Page (delete key (localStorage p)) (elements p) (trace p)).

(** [document.getElementById(id)]: the element, named by its id, or [null]. *)
Definition getElementById (id : string) : js (option string) := λ p,
  (Normal (match elements p !! id with Some _ => Some id | None => None end), p).

(** [element.textContent = content] and [element.innerHTML = content];
    assigning through [null] throws. *)
Definition set_content (element : option string) (content : string) : js unit :=
  match element with
  | None => throw TypeError
  | Some id => λ p,
      (Normal tt, Page (localStorage p) (<[id := content]> (elements p))
                       (trace p ++ [SetContent id content]))
  end.

(** [element.value]; reading through [null] throws. *)
Definition get_value (element : option string) : js string :=
  match element with
  | None => throw TypeError
  | Some id => λ p,
      match elements p !! id with
      | Some v => (Normal v, p)
      | None => (Throw TypeError, p)
      end
  end.

(** [window.location.href = href]: the navigation is requested, and the
    script keeps running. *)
Definition navigate (href : string) : js unit := emit (Navigate href).

(** [await fetch(...)]: the response, or the rejection thrown at the
    [await]. *)
Definition await (answer : fetched) : js response :=
  match answer with
  | Unreachable => throw NetworkError
  | Responded res => mret res
  end.

(** [await] of a body-reading promise, which rejects with [e] when the
    body cannot be read or parsed. *)
Definition settle {A : Type} (e : exn) (outcome : option A) : js A :=
  match outcome with
  | Some a => mret a
  | None => throw e
  end.

(** A call of an [async] function runs up to its first [await] of the
    network: it has then settled already, or it is pending and resumes
    when the answer to its request arrives.  A [Throw] completion of an
    [async] function is the rejection of its promise. *)
Inductive async (A : Type) : Type :=
| Settled (a : A)
| Pending (resume : fetched -> js A).
Arguments Settled {A} a.
Arguments Pending {A} resume.

(** The whole run of an [async] call whose request is answered by [answer]. *)
Definition run {A : Type} (call : js (async A)) (answer : fetched) : js A :=
  s ← call;
  match s with
  | Settled a => mret a
  | Pending resume => resume answer
  end.

(** ** String methods *)

Definition lower_ascii (c : ascii) : ascii :=
  let n := nat_of_ascii c in
  if (65 <=? n)%nat && (n <=? 90)%nat then ascii_of_nat (n + 32) else c.

(** A lower-casing of the letters A to Z, to run the filter on examples.
    The filter itself takes [String.prototype.toLowerCase] as given. *)
Fixpoint toLowerCase_ascii (s : string) : string :=
  match s with
  | EmptyString => EmptyString
  | String c rest => String (lower_ascii c) (toLowerCase_ascii rest)
  end.

(** [s.includes(q)] *)
Fixpoint includes (s q : string) : bool :=
  String.prefix q s ||
  match s with
  | EmptyString => false
  | String _ rest => includes rest q
  end.

(** ** The script *)

Definition BACKEND_URL : string := "http://127.0.0.1:8000".

Section Login.

(** [JSON.stringify] on a parsed value, the serializer of the browser. *)
Variable JSON_stringify : json -> string.

(** [JSON.stringify(v)]: [undefined] stays [undefined], which [setItem]
    then stores as the string "undefined". *)
Definition stringify_item (v : value) : string :=
  match v with
  | None => "undefined"
  | Some j => JSON_stringify j
  end.

(** [login(email, password)]: the form is posted; on the answer, a
    status outside 200..299 throws, otherwise the token and the identity
    descriptor of the parsed body are stored. *)
Definition login (email password : string) : js (async json) :=
  let url := BACKEND_URL +:+ "/admin/login" in
  let body := [("username", email); ("password", password)] in
  emit (Fetch (Request "POST" url
                 [("Content-Type", "application/x-www-form-urlencoded")]
                 (Some body)));;
  mret (Pending (λ answer,
    res ← await answer;
    if negb (ok res) then
      let errText := text res in
      throw (Error ("Login failed: " +:+
                    (if truthy_item errText then default "" errText
                     else pretty (status res))))
    else
      data ← settle SyntaxError (parsed res);
      access_token ← lift (get data "access_token");
      token ← lift (ToString_value access_token);
      setItem "token" token;;
      admin ← lift (get data "admin");
      setItem "admin" (stringify_item admin);;
      mret data)).

End Login.

(** [logout()] *)
Definition logout : js unit :=
  removeItem "admin";;
  removeItem "token";;
  navigate "index.html".

(** [checkAuth()]: the redirect is an assignment, and the statements
    after the [if] run in either case. *)
Definition checkAuth : js unit :=
  admin ← getItem "admin";
  (if negb (truthy_item admin) then navigate "index.html" else mret tt);;
  nameElement ← getElementById "admin-name";
  match nameElement with
  | Some _ => set_content nameElement (default "" admin)
  | None => mret tt
  end.

(** The line feed of the template literal. *)
Definition LF : string := String "010"%char EmptyString.

Definition placeholder_row : string :=
  "<tr><td colspan='4'>No attendance data found.</td></tr>".

(** The text a template literal puts in a cell. *)
Definition cell (v : value) : completion string := ToString_value v.

(** One pass of the [forEach] callback: the markup appended for [record]
    at position [index]. *)
Definition row_html (record : json) (index : nat) : completion string :=
  number ← Normal (pretty (index + 1)%nat);
  name ← get record "name";
  user ← get record "user";
  identity ← cell (or_else (or_else name user) (Some (JStr "—")));
  time ← get record "time";
  timestamp ← get record "timestamp";
  moment ← cell (or_else (or_else time timestamp) (Some (JStr "—")));
  status ← get record "status";
  label ← cell (or_else status (Some (JStr "Present")));
  mret (LF +:+ "          <tr>" +:+
        LF +:+ "            <td>" +:+ number +:+ "</td>" +:+
        LF +:+ "            <td>" +:+ identity +:+ "</td>" +:+
        LF +:+ "            <td>" +:+ moment +:+ "</td>" +:+
        LF +:+ "            <td>" +:+ label +:+ "</td>" +:+
        LF +:+ "          </tr>").

(** [items.forEach((record, index) => { html += ... })], from [index] on. *)
Fixpoint forEach_rows (items : list json) (index : nat) (html : string) : completion string :=
  match items with
  | [] => Normal html
  | record :: rest =>
      row ← row_html record index;
      forEach_rows rest (S index) (html +:+ row)
  end.

(** [data.forEach(...)]: only an array has the method. *)
Definition forEach (data : json) (html : string) : completion string :=
  match data with
  | JArr items => forEach_rows items 0 html
  | _ => Throw TypeError
  end.

(** The request of [fetch(`${BACKEND_URL}/attendance`, { headers:
    { Authorization: `Bearer ${token}` } })]. *)
Definition attendance_request (token : string) : request :=
  Request "GET" (BACKEND_URL +:+ "/attendance")
          [("Authorization", "Bearer " +:+ token)] None.

(** [loadAttendance()]: without a token it redirects and returns; with
    one it sends the request and, on the answer, renders the records,
    logs out on 401, or reports the failure. *)
Definition loadAttendance : js (async unit) :=
  tableRoot ← getElementById "attendance-table";
  errorElement ← getElementById "error-message";
  token ← getItem "token";
  if negb (truthy_item token) then
    navigate "index.html";;
    mret (Settled tt)
  else
    emit (Fetch (attendance_request (default "" token)));;
    mret (Pending (λ answer,
      try_catch
        (response ← await answer;
         if (status response =? 200)%nat then
           data ← settle SyntaxError (parsed response);
           len ← lift (get data "length");
           if is_zero len then
             set_content tableRoot placeholder_row
           else
             html ← lift (forEach data "");
             set_content tableRoot html
         else if (status response =? 401)%nat then
           set_content errorElement "Unauthorized. Please log in again.";;
           logout
         else
           set_content errorElement "Failed to load attendance data.")
        (λ error,
           emit (ConsoleError "Attendance fetch error:" error);;
           set_content errorElement "Server unreachable."))).

(** A row of the table as the filter sees it: the text of its cells and
    its [style.display]. *)
Record tr : Type := Row {
  cells : list string;
  display : string;
}.

Section Filter.

(** [String.prototype.toLowerCase], the lower-casing of the browser. *)
Variable toLowerCase : string -> string.

(** [filterAttendance()].  [rows] is what
    [document.querySelectorAll("#attendance-table tr")] returns; the
    result is the same rows after the loop.  A row without a second cell
    has the empty name, as has one whose second cell is empty. *)
Definition filterAttendance (rows : list tr) : js (list tr) :=
  input ← getElementById "filter-input";
  value ← get_value input;
  let query := toLowerCase value in
  mret (map (λ row,
               let name := match cells row !! 1%nat with
                           | Some content => toLowerCase content
                           | None => ""
                           end in
               Row (cells row) (if includes name query then "" else "none"))
            rows).

End Filter.

(** [downloadReport()]: the anchor created, clicked and removed on
    success is the [Download] event. *)
Definition downloadReport : js (async unit) :=
  token ← getItem "token";
  if negb (truthy_item token) then
    emit (Alert "Please log in first.");;
    mret (Settled tt)
  else
    emit (Fetch (attendance_request (default "" token)));;
    mret (Pending (λ answer,
      try_catch
        (response ← await answer;
         if (status response =? 200)%nat then
           content ← settle TypeError (blob response);
           emit (Download "attendance_report.csv" content)
         else
           emit (Alert "Failed to download report."))
        (λ error, emit (Alert "Server unreachable.")))).

(** The [DOMContentLoaded] listener on a page whose body carries the
    classes [classList], up to its return.  Each [loadAttendance()] call
    runs up to its request; the listener drops the two promises, which
    are returned here: a pending one is resumed by the browser when its
    answer arrives, after the listener has returned. *)
Definition onDOMContentLoaded (classList : list string) : js (async unit * async unit) :=
  first ← (if bool_decide ("dashboard-page" ∈ classList)
           then checkAuth;; loadAttendance else mret (Settled tt));
  second ← (if bool_decide ("attendance-page" ∈ classList)
            then checkAuth;; loadAttendance else mret (Settled tt));
  mret (first, second).

(** * Notions used to state the properties *)

(** ** Requests in a trace *)

Definition is_fetch (e : event) : bool :=
  match e with
  | Fetch _ => true
  | _ => false
  end.

(** ** Substrings and the rows of the filter *)

(** [q] occurs in [s] as a substring. *)
Definition contains (s q : string) : Prop :=
  exists pre post, s = pre +:+ q +:+ post.

(** ** The rows of a record set *)

(** The four cells of a rendered record row. *)
Record row_view : Type := RowView {
  number : nat;
  identity : string;
  moment : string;
  label : string;
}.

(** The markup of a record row. *)
Definition markup (row : row_view) : string :=
  LF +:+ "          <tr>" +:+
  LF +:+ "            <td>" +:+ pretty (number row) +:+ "</td>" +:+
  LF +:+ "            <td>" +:+ identity row +:+ "</td>" +:+
  LF +:+ "            <td>" +:+ moment row +:+ "</td>" +:+
  LF +:+ "            <td>" +:+ label row +:+ "</td>" +:+
  LF +:+ "          </tr>".

(** A value without structure: [null], a boolean, a number or a string. *)
Definition scalar (j : json) : bool :=
  match j with
  | JArr _ | JObj _ => false
  | _ => true
  end.

(** An attendance record: an object whose properties are scalars. *)
Definition is_record (j : json) : bool :=
  match j with
  | JObj props => forallb (λ kv, scalar kv.2) props
  | _ => false
  end.

(** The text of a scalar. *)
Definition print (j : json) : string :=
  match j with
  | JNull => "null"
  | JBool true => "true"
  | JBool false => "false"
  | JNum n => digits n
  | JStr s => s
  | _ => ""
  end.

(** A logical field of a record resolved through its aliases, in order:
    the first alias the record carries with a value to show gives the
    text; when none does, the placeholder stands in. *)
Fixpoint resolve (aliases : list string) (placeholder : string)
    (props : list (string * json)) : string :=
  match aliases with
  | [] => placeholder
  | alias :: others =>
      match own_property alias props with
      | Some v => if truthy (Some v) then print v else resolve others placeholder props
      | None => resolve others placeholder props
      end
  end.

Definition properties (record : json) : list (string * json) :=
  match record with
  | JObj props => props
  | _ => []
  end.

(** The row shown for the record at position [index] (from 0). *)
Definition view (index : nat) (record : json) : row_view :=
  RowView (index + 1)
          (resolve ["name"; "user"] "—" (properties record))
          (resolve ["time"; "timestamp"] "—" (properties record))
          (resolve ["status"] "Present" (properties record)).

(** The rows shown for [records], the first one at position [index]. *)
Fixpoint views (index : nat) (records : list json) : list row_view :=
  match records with
  | [] => []
  | record :: rest => view index record :: views (S index) rest
  end.

Definition join_rows (rows : list string) : string := foldr String.append "" rows.



(** How many times [needle] occurs in [hay]. *)
Fixpoint occurrences (needle hay : string) : nat :=
  (if String.prefix needle hay then 1 else 0) +
  match hay with
  | EmptyString => 0
  | String _ rest => occurrences needle rest
  end.

(** ** Notions for the further properties *)

(** The request [login] hands to [fetch]. *)
Definition login_request (email password : string) : request :=
  Request "POST" (BACKEND_URL +:+ "/admin/login")
          [("Content-Type", "application/x-www-form-urlencoded")]
          (Some [("username", email); ("password", password)]).

(** The properties of an object other than [key]. *)
Definition without (key : string) (props : list (string * json)) : list (string * json) :=
  List.filter (λ kv, negb (String.eqb kv.1 key)) props.

(** [x'] is [x], or [x] counts as false and [x'] is [undefined]. *)
Definition weakens (x x' : value) : Prop :=
  x' = x \/ (truthy x = false /\ x' = None).

(** What a load puts in the table for an array of records. *)
Definition rendered (records : list json) : string :=
  match records with
  | [] => placeholder_row
  | _ :: _ => join_rows (map markup (views 0 records))
  end.

(** * Properties *)

(** ** Evaluating the script *)

Ltac js_unfold :=
  unfold run, logout, navigate, await, settle, lift, try_catch,
    set_content, get_value, getElementById, getItem, setItem, removeItem, emit, throw,
    mbind, js_bind, mret, js_ret in *.

(** Run the script on a symbolic page: unfold the operations, then use
    the facts known about the store and the elements. *)
Ltac js_run :=
  js_unfold; simpl;
  repeat match goal with
         | H : ?x = _ |- context [?x] => rewrite !H; simpl
         end.

(** Use the equations of the context. *)
Ltac known :=
  repeat match goal with
         | H : ?x = _ |- context [?x] => rewrite !H
         end.

(** Resolve the lookups of a page that was written to. *)
Ltac settle_page :=
  simpl;
  rewrite ?lookup_insert_eq, ?lookup_insert_ne, ?lookup_delete_eq by discriminate;
  known; simpl; rewrite ?insert_insert_eq; try reflexivity.

(** ** Unauthorized answers *)

(** C1. When the attendance request is answered with status 401, on a
    page that has the error region, the region reads "Unauthorized.
    Please log in again.", the store holds neither the token nor the
    identity descriptor, and the page navigates to the entry point,
    whatever the store held before. *)
Theorem unauthorized_clears_credentials (st : page) (res : response) :
  truthy_item (localStorage st !! "token") = true ->
  is_Some (elements st !! "error-message") ->
  status res = 401%nat ->
  let after := run loadAttendance (Responded res) st in
  after.1 = Normal tt /\
  elements after.2 !! "error-message" = Some "Unauthorized. Please log in again." /\
  localStorage after.2 !! "token" = None /\
  localStorage after.2 !! "admin" = None /\
  localStorage after.2 = delete "token" (delete "admin" (localStorage st)) /\
  trace after.2 =
    (trace st ++ [Fetch (attendance_request (default "" (localStorage st !! "token")));
                  SetContent "error-message" "Unauthorized. Please log in again.";
                  Navigate "index.html"])%list.
Proof.
  intros Htoken [err Herr] Hstatus after. subst after.
  unfold loadAttendance. js_run.
  repeat split.
  - apply lookup_insert_eq.
  - apply lookup_delete_eq.
  - rewrite lookup_delete_ne by discriminate. apply lookup_delete_eq.
  - rewrite <- !app_assoc. reflexivity.
Qed.

Lemma unauthorized_clears_credentials_witness :
  let st := Page {[ "token" := "T"; "admin" := "{}" ]}
                 {[ "error-message" := "" ]} [] in
  let after := run loadAttendance (Responded (Response 401 None None None)) st in
  elements after.2 !! "error-message" = Some "Unauthorized. Please log in again." /\
  localStorage after.2 !! "token" = None /\
  localStorage after.2 !! "admin" = None.
Proof.
  intros st after.
  destruct (unauthorized_clears_credentials st (Response 401 None None None))
    as (_ & Herr & Htoken & Hadmin & _).
  - vm_compute. reflexivity.
  - exists "". vm_compute. reflexivity.
  - reflexivity.
  - auto.
Defined.

(** On a page without the error region the assignment of the message
    throws, in the [try] block and again in the [catch] block: the promise
    rejects and the store is left as it was. *)
Lemma unauthorized_without_error_region (st : page) (res : response) :
  truthy_item (localStorage st !! "token") = true ->
  elements st !! "error-message" = None ->
  status res = 401%nat ->
  let after := run loadAttendance (Responded res) st in
  after.1 = Throw TypeError /\ localStorage after.2 = localStorage st.
Proof.
  intros Htoken Herr Hstatus after. subst after.
  unfold loadAttendance. js_run. split; reflexivity.
Qed.

(** ** Requests need a stored token *)

(** C3. While the store holds no token (or an empty one), neither the
    attendance load nor the export sends a request: the load only
    navigates to the entry point and the export only prompts the user,
    whatever the network would have answered. *)
Theorem no_request_without_token (st : page) (answer : fetched) :
  truthy_item (localStorage st !! "token") = false ->
  run loadAttendance answer st =
    (Normal tt, Page (localStorage st) (elements st)
                     (trace st ++ [Navigate "index.html"])) /\
  run downloadReport answer st =
    (Normal tt, Page (localStorage st) (elements st)
                     (trace st ++ [Alert "Please log in first."])).
Proof.
  intros Htoken. unfold loadAttendance, downloadReport. js_run. split; reflexivity.
Qed.

Lemma no_request_without_token_witness :
  let st := Page {[ "admin" := "{}" ]} {[ "attendance-table" := "" ]} [] in
  localStorage st !! "token" = None /\
  trace (run loadAttendance Unreachable st).2 = [Navigate "index.html"] /\
  trace (run downloadReport Unreachable st).2 = [Alert "Please log in first."].
Proof.
  intros st.
  destruct (no_request_without_token st Unreachable) as [Hload Hexport].
  - vm_compute. reflexivity.
  - split; [vm_compute; reflexivity|]. rewrite Hload, Hexport. split; reflexivity.
Defined.


(** ** The session guard *)

(** C2. With an empty store, on a dashboard page that shows the
    administrator's name, the guard requests the navigation to the entry
    point and then keeps running: it overwrites the name element and
    returns normally, and its caller goes on to call the attendance load,
    which requests the navigation once more and leaves nothing pending. *)
Theorem checkAuth_runs_past_redirect :
  let st := Page ∅ {[ "admin-name" := "Admin" ]} [] in
  localStorage st !! "token" = None /\
  (checkAuth st).1 = Normal tt /\
  trace (checkAuth st).2 = [Navigate "index.html"; SetContent "admin-name" ""] /\
  elements (checkAuth st).2 !! "admin-name" = Some "" /\
  (onDOMContentLoaded ["dashboard-page"] st).1 = Normal (Settled tt, Settled tt) /\
  trace (onDOMContentLoaded ["dashboard-page"] st).2 =
    [Navigate "index.html"; SetContent "admin-name" ""; Navigate "index.html"].
Proof.
  vm_compute. repeat split.
Qed.

(** The guard looks at the stored identity descriptor, which the login
    writes and the logout removes together with the token. *)
Lemma checkAuth_reads_identity (st : page) :
  truthy_item (localStorage st !! "admin") = true ->
  elements st !! "admin-name" = None ->
  checkAuth st = (Normal tt, st).
Proof.
  destruct st as [store elems events]. simpl. intros Hadmin Hname.
  unfold checkAuth. js_run. reflexivity.
Qed.

Lemma not_ok_not_200 (res : response) : ok res = false -> (status res =? 200)%nat = false.
Proof.
  unfold ok. intros H. apply Nat.eqb_neq. intros E. rewrite E in H. discriminate.
Qed.

(** ** Failure messages *)

(** C7. On a page that has the error region and with a token in the
    store, an attendance load that gets no response and one that gets a
    status other than 401 and outside 200..299 leave two different
    messages in the error region; an export in the same two situations
    raises two different alerts. *)
Theorem failure_messages_differ (st : page) (res : response) :
  truthy_item (localStorage st !! "token") = true ->
  is_Some (elements st !! "error-message") ->
  status res <> 401%nat ->
  ok res = false ->
  let request := Fetch (attendance_request (default "" (localStorage st !! "token"))) in
  let load_unreachable := run loadAttendance Unreachable st in
  let load_failed := run loadAttendance (Responded res) st in
  let export_unreachable := run downloadReport Unreachable st in
  let export_failed := run downloadReport (Responded res) st in
  elements load_unreachable.2 !! "error-message" = Some "Server unreachable." /\
  elements load_failed.2 !! "error-message" = Some "Failed to load attendance data." /\
  elements load_unreachable.2 !! "error-message" <> elements load_failed.2 !! "error-message" /\
  trace export_unreachable.2 = (trace st ++ [request; Alert "Server unreachable."])%list /\
  trace export_failed.2 = (trace st ++ [request; Alert "Failed to download report."])%list /\
  trace export_unreachable.2 <> trace export_failed.2.
Proof.
  intros Htoken [err Herr] H401 Hok.
  pose proof (not_ok_not_200 res Hok) as H200.
  apply Nat.eqb_neq in H401.
  unfold loadAttendance, downloadReport. js_run.
  rewrite !lookup_insert_eq, <- !app_assoc. simpl.
  repeat split; try discriminate.
  intros E. apply app_inv_head in E. discriminate.
Qed.

Lemma failure_messages_differ_witness :
  let st := Page {[ "token" := "T" ]} {[ "error-message" := "" ]} [] in
  let res := Response 500 None None None in
  elements (run loadAttendance Unreachable st).2 !! "error-message"
    <> elements (run loadAttendance (Responded res) st).2 !! "error-message" /\
  trace (run downloadReport Unreachable st).2
    <> trace (run downloadReport (Responded res) st).2.
Proof.
  intros st res.
  destruct (failure_messages_differ st res) as (_ & _ & Hload & _ & _ & Hexport).
  - vm_compute. reflexivity.
  - exists "". vm_compute. reflexivity.
  - simpl. lia.
  - reflexivity.
  - split; assumption.
Defined.

(** ** Login *)

(** C10. A login answered with a status outside 200..299 throws before
    any write to the store: the token and the identity descriptor, also
    those of an earlier session, are what they were; the only effect is
    the request that was sent. *)
Theorem login_failure_keeps_store (JSON_stringify : json -> string)
    (st : page) (email password : string) (res : response) :
  ok res = false ->
  let after := run (login JSON_stringify email password) (Responded res) st in
  after.1 = Throw (Error ("Login failed: " +:+
                          (if truthy_item (text res) then default "" (text res)
                           else pretty (status res)))) /\
  localStorage after.2 = localStorage st /\
  localStorage after.2 !! "token" = localStorage st !! "token" /\
  localStorage after.2 !! "admin" = localStorage st !! "admin" /\
  elements after.2 = elements st /\
  trace after.2 =
    (trace st ++ [Fetch (Request "POST" (BACKEND_URL +:+ "/admin/login")
                    [("Content-Type", "application/x-www-form-urlencoded")]
                    (Some [("username", email); ("password", password)]))])%list.
Proof.
  intros Hok. unfold login. js_run. repeat split.
Qed.

Lemma login_failure_keeps_store_witness :
  let st := Page {[ "token" := "old"; "admin" := "{}" ]} ∅ [] in
  let res := Response 401 (Some "Incorrect email or password") None None in
  let after := run (login (λ _, "{}") "admin@example.com" "wrong") (Responded res) st in
  after.1 = Throw (Error "Login failed: Incorrect email or password") /\
  localStorage after.2 !! "token" = Some "old" /\
  localStorage after.2 !! "admin" = Some "{}".
Proof.
  intros st res after.
  destruct (login_failure_keeps_store (λ _, "{}") st "admin@example.com" "wrong" res)
    as (Hthrow & _ & Htoken & Hadmin & _).
  - reflexivity.
  - subst after. split; [exact Hthrow|]. split.
    + rewrite Htoken. vm_compute. reflexivity.
    + rewrite Hadmin. vm_compute. reflexivity.
Defined.

(** With a token in the store, an attendance load sends exactly one
    request, the first thing it does, and that request carries the
    stored token. *)
Lemma loadAttendance_effects (st : page) (answer : fetched) :
  truthy_item (localStorage st !! "token") = true ->
  exists rest,
    trace (run loadAttendance answer st).2 =
      (trace st ++ Fetch (attendance_request (default "" (localStorage st !! "token"))) :: rest)%list /\
    Forall (λ e, is_fetch e = false) rest.
Proof.
  intros Htoken. unfold loadAttendance. js_run.
  repeat case_match; simplify_eq/=; rewrite <- ?app_assoc;
    (eexists; split; [reflexivity | repeat constructor]).
Qed.

(** C5. A login answered with a success status and a body whose
    [access_token] is the string [T] and which carries an identity
    descriptor leaves [T] in the store as the token; and from any later
    state whose stored token is still [T], every request an attendance
    load sends is the one with the header [Authorization: Bearer T] (it
    sends one whenever [T] is not empty). *)
Theorem login_then_bearer_fetch (JSON_stringify : json -> string)
    (st : page) (email password : string) (res : response)
    (props : list (string * json)) (T : string) (admin : json) :
  ok res = true ->
  parsed res = Some (JObj props) ->
  own_property "access_token" props = Some (JStr T) ->
  own_property "admin" props = Some admin ->
  let after := run (login JSON_stringify email password) (Responded res) st in
  after.1 = Normal (JObj props) /\
  localStorage after.2 !! "token" = Some T /\
  localStorage after.2 !! "admin" = Some (JSON_stringify admin) /\
  headers (attendance_request T) = [("Authorization", "Bearer " +:+ T)] /\
  forall (later : page) (answer : fetched),
    localStorage later !! "token" = Some T ->
    exists events,
      trace (run loadAttendance answer later).2 = (trace later ++ events)%list /\
      (forall req, Fetch req ∈ events -> req = attendance_request T) /\
      (T <> "" -> exists rest, events = Fetch (attendance_request T) :: rest).
Proof.
  intros Hok Hparsed Htoken Hadmin after. subst after.
  split; [|split; [|split; [|split]]].
  - unfold login. js_run. reflexivity.
  - unfold login. js_run.
    rewrite lookup_insert_ne by discriminate. apply lookup_insert_eq.
  - unfold login. js_run. apply lookup_insert_eq.
  - reflexivity.
  - intros later answer Hlater.
    destruct (truthy_item (localStorage later !! "token")) eqn:Htruthy.
    + destruct (loadAttendance_effects later answer Htruthy) as (rest & Htrace & Hrest).
      rewrite Hlater in Htrace. simpl in Htrace.
      exists (Fetch (attendance_request T) :: rest). split; [exact Htrace|]. split.
      * intros req [Hreq | Hreq]%elem_of_cons; [congruence|].
        rewrite Forall_forall in Hrest. apply Hrest in Hreq. discriminate.
      * intros _. exists rest. reflexivity.
    + exists [Navigate "index.html"]. split; [|split].
      * unfold loadAttendance. js_run. reflexivity.
      * intros req [Hreq | Hreq]%elem_of_cons; [discriminate|].
        apply elem_of_nil in Hreq. contradiction.
      * intros HT. rewrite Hlater in Htruthy. simpl in Htruthy.
        apply negb_false_iff, String.eqb_eq in Htruthy. contradiction.
Qed.

Lemma login_then_bearer_fetch_witness :
  let body := [("access_token", JStr "T"); ("admin", JObj [("name", JStr "Admin")])] in
  let res := Response 200 None (Some (JObj body)) None in
  let after := run (login (λ _, "{}") "admin@example.com" "correct") (Responded res)
                   (Page ∅ ∅ []) in
  localStorage after.2 !! "token" = Some "T" /\
  exists events,
    trace (run loadAttendance Unreachable after.2).2 = (trace after.2 ++ events)%list /\
    forall req, Fetch req ∈ events -> headers req = [("Authorization", "Bearer T")].
Proof.
  intros body res after.
  destruct (login_then_bearer_fetch (λ _, "{}") (Page ∅ ∅ []) "admin@example.com" "correct"
              res body "T" (JObj [("name", JStr "Admin")]))
    as (_ & Htoken & _ & Hheaders & Hlater); try reflexivity.
  split; [exact Htoken|].
  destruct (Hlater after.2 Unreachable Htoken) as (events & Htrace & Hfetch & _).
  exists events. split; [exact Htrace|].
  intros req Hreq. rewrite (Hfetch req Hreq). exact Hheaders.
Defined.

(** ** The row filter *)

Lemma prefix_spec (q s : string) :
  String.prefix q s = true <-> exists post, s = q +:+ post.
Proof.
  revert s. induction q as [|c q IH]; intros s.
  - split; [intros _; exists s; reflexivity|]. intros _. destruct s; reflexivity.
  - destruct s as [|d s]; simpl.
    + split; [discriminate|]. intros [post H]. discriminate.
    + destruct (Ascii.ascii_dec c d) as [->|Hne].
      * rewrite IH. split; intros [post H]; exists post; [rewrite H; reflexivity|].
        injection H as H. exact H.
      * split; [discriminate|]. intros [post H]. injection H as H1 H2. congruence.
Qed.

Lemma includes_spec (s q : string) : includes s q = true <-> contains s q.
Proof.
  induction s as [|c s IH].
  - cbn [includes]. rewrite orb_false_r, prefix_spec. split.
    + intros [post H]. exists "", post. exact H.
    + intros (pre & post & H). destruct pre; [exists post; exact H | discriminate].
  - cbn [includes]. rewrite orb_true_iff, prefix_spec, IH. split.
    + intros [[post H] | (pre & post & H)].
      * exists "", post. exact H.
      * exists (String c pre), post. simpl. rewrite H. reflexivity.
    + intros (pre & post & H). destruct pre as [|d pre].
      * left. exists post. exact H.
      * right. injection H as H1 H2. exists pre, post. exact H2.
Qed.

Lemma includes_empty (s : string) : includes s "" = true.
Proof. destruct s; reflexivity. Qed.

Lemma contains_empty (q : string) : contains "" q <-> q = "".
Proof.
  split.
  - intros (pre & post & H). destruct pre; [|discriminate].
    destruct q; [reflexivity | discriminate].
  - intros ->. exists "", "". reflexivity.
Qed.

(** C6. On a page whose filter input holds [q], filtering the rendered
    rows leaves each row in place with its cells; a row with an identity
    cell is shown when the lower-cased text of that cell contains the
    lower-cased [q] and hidden otherwise, and a row without that cell is
    shown only for a query that lower-cases to nothing; with the empty
    query every row is shown; and the page state, its trace of effects
    included, is what it was, so no request is sent.  This holds whatever
    function the lower-casing is (for the empty query, one that leaves
    the empty string empty). *)
Theorem filter_shows_matching_rows (toLowerCase : string -> string)
    (st : page) (q : string) (rows : list tr) :
  elements st !! "filter-input" = Some q ->
  exists rows',
    filterAttendance toLowerCase rows st = (Normal rows', st) /\
    trace (filterAttendance toLowerCase rows st).2 = trace st /\
    length rows' = length rows /\
    (forall i row, rows !! i = Some row ->
       exists row', rows' !! i = Some row' /\ cells row' = cells row /\
         (display row' = "" \/ display row' = "none") /\
         (forall content, cells row !! 1%nat = Some content ->
            (display row' = "" <-> contains (toLowerCase content) (toLowerCase q))) /\
         (cells row !! 1%nat = None -> (display row' = "" <-> toLowerCase q = ""))) /\
    (toLowerCase "" = "" -> q = "" -> Forall (λ row', display row' = "") rows').
Proof.
  intros Hinput. unfold filterAttendance. js_run. destruct st as [store elems events].
  eexists. split; [reflexivity|]. simpl. split; [reflexivity|]. split; [|split].
  - apply length_map.
  - intros i row Hrow. rewrite list_lookup_fmap, Hrow. simpl.
    eexists. split; [reflexivity|]. simpl. split; [reflexivity|].
    split; [|split].
    + destruct (includes _ _); [left | right]; reflexivity.
    + intros content ->. rewrite <- includes_spec.
      destruct (includes _ _); split; intros H; first [reflexivity | discriminate H].
    + intros ->. rewrite <- (contains_empty (toLowerCase q)), <- includes_spec.
      destruct (includes _ _); split; intros H; first [reflexivity | discriminate H].
  - intros Hempty ->. apply Forall_forall. intros row' Hin.
    apply list_elem_of_fmap in Hin as (row & -> & _). simpl.
    rewrite Hempty, includes_empty. reflexivity.
Qed.

Lemma filter_shows_matching_rows_witness :
  let st := Page ∅ {[ "filter-input" := "ALI" ]} [] in
  let rows := [Row ["1"; "Alice"; "09:41"; "present"] "";
               Row ["2"; "Bob"; "09:43"; "present"] ""] in
  (filterAttendance toLowerCase_ascii rows st).1 =
    Normal [Row ["1"; "Alice"; "09:41"; "present"] "";
            Row ["2"; "Bob"; "09:43"; "present"] "none"] /\
  exists rows',
    filterAttendance toLowerCase_ascii rows st = (Normal rows', st) /\ length rows' = 2%nat.
Proof.
  intros st rows. split; [vm_compute; reflexivity|].
  destruct (filter_shows_matching_rows toLowerCase_ascii st "ALI" rows)
    as (rows' & Hrun & _ & Hlen & _).
  - vm_compute. reflexivity.
  - exists rows'. split; [exact Hrun | exact Hlen].
Defined.

(** ** Rendering the record set *)

Lemma append_assoc (a b c : string) : (a +:+ b) +:+ c = a +:+ (b +:+ c).
Proof.
  induction a as [|x a IH]; [reflexivity|].
  change (String x ((a +:+ b) +:+ c) = String x (a +:+ (b +:+ c))). rewrite IH. reflexivity.
Qed.

Lemma append_empty_r (a : string) : a +:+ "" = a.
Proof.
  induction a as [|x a IH]; [reflexivity|].
  change (String x (a +:+ "") = String x a). rewrite IH. reflexivity.
Qed.

Lemma own_property_scalar (key : string) (props : list (string * json)) (v : json) :
  forallb (λ kv, scalar kv.2) props = true ->
  own_property key props = Some v -> scalar v = true.
Proof.
  induction props as [|[k w] props IH]; simpl; [discriminate|].
  intros [Hw Hprops]%andb_true_iff. destruct (String.eqb k key).
  - intros [= <-]. exact Hw.
  - apply IH. exact Hprops.
Qed.

Lemma ToString_scalar (v : json) : scalar v = true -> ToString v = Normal (print v).
Proof. destruct v as [|[]| | | |]; simpl; intros H; (reflexivity || discriminate). Qed.

(** The [a || b || placeholder] chain of a cell is the resolution of the
    field through the aliases [a] then [b]. *)
Lemma cell_two_aliases (a b placeholder : string) (props : list (string * json)) :
  forallb (λ kv, scalar kv.2) props = true ->
  cell (or_else (or_else (own_property a props) (own_property b props))
                (Some (JStr placeholder)))
  = Normal (resolve [a; b] placeholder props).
Proof.
  intros Hprops. unfold cell, or_else. cbn [resolve].
  destruct (own_property a props) as [v|] eqn:Ha.
  - destruct (truthy (Some v)) eqn:Hv.
    + rewrite Hv. cbn [ToString_value]. apply ToString_scalar. eauto using own_property_scalar.
    + destruct (own_property b props) as [w|] eqn:Hb; [|reflexivity].
      destruct (truthy (Some w)) eqn:Hw; rewrite ?Hw; [|reflexivity].
      cbn [ToString_value]. apply ToString_scalar. eauto using own_property_scalar.
  - change (truthy None) with false. cbv iota.
    destruct (own_property b props) as [w|] eqn:Hb; [|reflexivity].
    destruct (truthy (Some w)) eqn:Hw; rewrite ?Hw; [|reflexivity].
    cbn [ToString_value]. apply ToString_scalar. eauto using own_property_scalar.
Qed.

Lemma cell_one_alias (a placeholder : string) (props : list (string * json)) :
  forallb (λ kv, scalar kv.2) props = true ->
  cell (or_else (own_property a props) (Some (JStr placeholder)))
  = Normal (resolve [a] placeholder props).
Proof.
  intros Hprops. unfold cell, or_else. cbn [resolve].
  destruct (own_property a props) as [v|] eqn:Ha; [|reflexivity].
  destruct (truthy (Some v)) eqn:Hv; [|reflexivity].
  cbn [ToString_value]. apply ToString_scalar. eauto using own_property_scalar.
Qed.

Lemma row_html_view (record : json) (index : nat) :
  is_record record = true -> row_html record index = Normal (markup (view index record)).
Proof.
  destruct record as [| | | | |props]; try discriminate. simpl. intros Hprops.
  unfold row_html, view, markup. simpl.
  unfold mbind, completion_bind.
  rewrite (cell_two_aliases "name" "user"), (cell_two_aliases "time" "timestamp"),
    (cell_one_alias "status") by exact Hprops.
  reflexivity.
Qed.

Lemma forEach_rows_views (records : list json) (index : nat) (html : string) :
  Forall (λ record, is_record record = true) records ->
  forEach_rows records index html
  = Normal (html +:+ join_rows (map markup (views index records))).
Proof.
  intros Hrecords. revert index html.
  induction Hrecords as [|record rest Hrecord _ IH]; intros index html; simpl.
  - rewrite append_empty_r. reflexivity.
  - rewrite (row_html_view record index Hrecord). unfold mbind, completion_bind.
    rewrite IH, append_assoc. reflexivity.
Qed.



Lemma truthy_text (s : string) : s <> "" -> truthy (Some (JStr s)) = true.
Proof. intros Hs. simpl. apply negb_true_iff, String.eqb_neq. exact Hs. Qed.

Lemma resolve_first (a : string) (others : list string) (placeholder : string)
    (props : list (string * json)) (s : string) :
  own_property a props = Some (JStr s) -> s <> "" ->
  resolve (a :: others) placeholder props = s.
Proof. intros Ha Hs. cbn [resolve]. rewrite Ha, (truthy_text s Hs). reflexivity. Qed.










(** C8. For the empty record set answered with status 200, on a page
    that has the table and with a token in the store, the load completes
    normally and sets the table to the single row that says no attendance
    data was found; the error region is not written. *)
Theorem render_empty_placeholder (st : page) (res : response) :
  truthy_item (localStorage st !! "token") = true ->
  is_Some (elements st !! "attendance-table") ->
  status res = 200%nat ->
  parsed res = Some (JArr []) ->
  run loadAttendance (Responded res) st =
    (Normal tt,
     Page (localStorage st) (<["attendance-table" := placeholder_row]> (elements st))
          (trace st ++ [Fetch (attendance_request (default "" (localStorage st !! "token")));
                        SetContent "attendance-table" placeholder_row])) /\
  placeholder_row = "<tr><td colspan='4'>No attendance data found.</td></tr>" /\
  occurrences "<tr" placeholder_row = 1%nat /\
  occurrences "</tr>" placeholder_row = 1%nat.
Proof.
  intros Htoken [table Htable] Hstatus Hparsed.
  split; [|repeat split].
  unfold loadAttendance. js_run. rewrite <- app_assoc. reflexivity.
Qed.

Lemma render_empty_placeholder_witness :
  let st := Page {[ "token" := "T" ]} {[ "attendance-table" := "old rows" ]} [] in
  let res := Response 200 None (Some (JArr [])) None in
  elements (run loadAttendance (Responded res) st).2 !! "attendance-table"
    = Some "<tr><td colspan='4'>No attendance data found.</td></tr>".
Proof.
  intros st res.
  destruct (render_empty_placeholder st res) as (Hrun & _).
  - vm_compute. reflexivity.
  - exists "old rows". vm_compute. reflexivity.
  - reflexivity.
  - reflexivity.
  - rewrite Hrun. simpl. apply lookup_insert_eq.
Defined.

(** C9. Loading the same answer a second time leaves the page showing
    what it showed after the first load: the table (and the error region)
    are replaced wholesale by content computed from the answer alone. In
    particular this holds for every record set answered with status 200. *)
Theorem render_idempotent (st : page) (answer : fetched) :
  let once := (run loadAttendance answer st).2 in
  let twice := (run loadAttendance answer once).2 in
  elements twice = elements once.
Proof.
  unfold loadAttendance. js_unfold. simpl.
  destruct (truthy_item (localStorage st !! "token")) eqn:Htoken; settle_page.
  destruct (elements st !! "attendance-table") as [table|] eqn:Htable;
    destruct (elements st !! "error-message") as [message|] eqn:Hmessage;
    destruct answer as [|res]; settle_page;
    repeat (case_match; simplify_eq; settle_page).
Qed.

(** * Further properties of the script *)

Ltac find_event :=
  first [ apply list_elem_of_here | apply list_elem_of_further; find_event ].

(** ** Single runs of the attendance load, as equations *)

Lemma load_unreachable_page (st : page) :
  truthy_item (localStorage st !! "token") = true ->
  is_Some (elements st !! "error-message") ->
  run loadAttendance Unreachable st =
    (Normal tt,
     Page (localStorage st)
          (<["error-message" := "Server unreachable."]> (elements st))
          (trace st ++ [Fetch (attendance_request (default "" (localStorage st !! "token")));
                        ConsoleError "Attendance fetch error:" NetworkError;
                        SetContent "error-message" "Server unreachable."])).
Proof.
  intros Htoken [message Hmessage]. unfold loadAttendance. js_run.
  rewrite <- !app_assoc. reflexivity.
Qed.

Lemma load_unauthorized_page (st : page) (res : response) :
  truthy_item (localStorage st !! "token") = true ->
  is_Some (elements st !! "error-message") ->
  status res = 401%nat ->
  run loadAttendance (Responded res) st =
    (Normal tt,
     Page (delete "token" (delete "admin" (localStorage st)))
          (<["error-message" := "Unauthorized. Please log in again."]> (elements st))
          (trace st ++ [Fetch (attendance_request (default "" (localStorage st !! "token")));
                        SetContent "error-message" "Unauthorized. Please log in again.";
                        Navigate "index.html"])).
Proof.
  intros Htoken [message Hmessage] Hstatus. unfold loadAttendance. js_run.
  rewrite <- !app_assoc. reflexivity.
Qed.

Lemma load_records_page (st : page) (res : response) (records : list json) :
  truthy_item (localStorage st !! "token") = true ->
  is_Some (elements st !! "attendance-table") ->
  status res = 200%nat ->
  parsed res = Some (JArr records) ->
  Forall (λ record, is_record record = true) records ->
  run loadAttendance (Responded res) st =
    (Normal tt,
     Page (localStorage st)
          (<["attendance-table" := rendered records]> (elements st))
          (trace st ++ [Fetch (attendance_request (default "" (localStorage st !! "token")));
                        SetContent "attendance-table" (rendered records)])).
Proof.
  intros Htoken [table Htable] Hstatus Hparsed Hrecords.
  destruct records as [|record rest].
  - unfold loadAttendance. js_run. rewrite <- app_assoc. reflexivity.
  - remember (record :: rest) as records eqn:Hshape.
    assert (Hrendered : rendered records = join_rows (map markup (views 0 records)))
      by (rewrite Hshape; reflexivity).
    assert (Hzero : (length records =? 0)%nat = false)
      by (rewrite Hshape; reflexivity).
    clear Hshape. rewrite Hrendered.
    unfold loadAttendance. js_run.
    rewrite (forEach_rows_views records 0 "" Hrecords).
    change ("" +:+ ?x) with x. simpl. rewrite <- app_assoc. reflexivity.
Qed.

Lemma load_logged_out (st : page) (answer : fetched) :
  truthy_item (localStorage st !! "token") = false ->
  run loadAttendance answer st =
    (Normal tt, Page (localStorage st) (elements st) (trace st ++ [Navigate "index.html"])).
Proof. intros Htoken. unfold loadAttendance. js_run. reflexivity. Qed.

Lemma export_logged_out (st : page) (answer : fetched) :
  truthy_item (localStorage st !! "token") = false ->
  run downloadReport answer st =
    (Normal tt, Page (localStorage st) (elements st) (trace st ++ [Alert "Please log in first."])).
Proof. intros Htoken. unfold downloadReport. js_run. reflexivity. Qed.

(** ** Login and logout *)

(** X1. Whatever the network answers, a login sends exactly one request,
    the form post, and never touches the elements of the page; and it
    either completes normally with both the token and the identity
    descriptor written, or throws with the store as it was. *)
Theorem login_all_or_nothing (JSON_stringify : json -> string)
    (st : page) (email password : string) (answer : fetched) :
  let after := run (login JSON_stringify email password) answer st in
  elements after.2 = elements st /\
  trace after.2 = (trace st ++ [Fetch (login_request email password)])%list /\
  ((exists data token admin,
      after.1 = Normal data /\
      localStorage after.2 = <["admin" := admin]> (<["token" := token]> (localStorage st)))
   \/ (exists e, after.1 = Throw e /\ localStorage after.2 = localStorage st)).
Proof.
  unfold login. js_unfold. simpl.
  destruct answer as [|res]; simpl; repeat case_match; simplify_eq/=;
    (split; [reflexivity|]; split; [reflexivity|]);
    first [ left; do 3 eexists; split; reflexivity
          | right; eexists; split; reflexivity
          | exfalso;
            match goal with
            | H : get ?a _ = Throw _, H' : get ?a _ = Normal _ |- _ =>
                destruct a; discriminate
            end ].
Qed.

(** X2. A login answered with a success status and an object that has
    no [access_token] completes normally and stores the text "undefined"
    as the token; the next attendance load then sends its request with
    [Bearer undefined]. *)
Theorem login_without_token_stores_undefined (JSON_stringify : json -> string)
    (st : page) (email password : string) (res : response)
    (props : list (string * json)) (answer : fetched) :
  ok res = true ->
  parsed res = Some (JObj props) ->
  own_property "access_token" props = None ->
  let after := run (login JSON_stringify email password) (Responded res) st in
  after.1 = Normal (JObj props) /\
  localStorage after.2 !! "token" = Some "undefined" /\
  exists rest,
    trace (run loadAttendance answer after.2).2 =
      (trace after.2 ++ Fetch (attendance_request "undefined") :: rest)%list.
Proof.
  intros Hok Hparsed Htoken after.
  assert (Hafter : after.1 = Normal (JObj props) /\
                   localStorage after.2 !! "token" = Some "undefined").
  { subst after. unfold login. js_run. split; [reflexivity|].
    rewrite lookup_insert_ne by discriminate. apply lookup_insert_eq. }
  destruct Hafter as [Hdata Hstored]. split; [exact Hdata|]. split; [exact Hstored|].
  destruct (loadAttendance_effects after.2 answer) as (rest & Htrace & _).
  - rewrite Hstored. reflexivity.
  - exists rest. rewrite Htrace, Hstored. reflexivity.
Qed.

Lemma login_without_token_stores_undefined_witness :
  let res := Response 200 None (Some (JObj [("admin", JObj [("name", JStr "Admin")])])) None in
  let after := run (login (λ _, "{}") "admin@example.com" "correct") (Responded res)
                   (Page ∅ ∅ []) in
  localStorage after.2 !! "token" = Some "undefined" /\
  exists rest,
    trace (run loadAttendance Unreachable after.2).2 =
      (trace after.2 ++ Fetch (attendance_request "undefined") :: rest)%list.
Proof.
  intros res after.
  destruct (login_without_token_stores_undefined (λ _, "{}") (Page ∅ ∅ [])
              "admin@example.com" "correct" res
              [("admin", JObj [("name", JStr "Admin")])] Unreachable)
    as (_ & Hstored & Hload); try reflexivity.
  split; [exact Hstored | exact Hload].
Defined.

(** X3. A login that completed normally followed by a logout leaves the
    store without token and without identity descriptor, and every other
    key of the store as it was before the login. *)
Theorem login_then_logout (JSON_stringify : json -> string)
    (st : page) (email password : string) (answer : fetched) (data : json) :
  (run (login JSON_stringify email password) answer st).1 = Normal data ->
  let out := logout (run (login JSON_stringify email password) answer st).2 in
  out.1 = Normal tt /\
  localStorage out.2 = delete "token" (delete "admin" (localStorage st)) /\
  localStorage out.2 !! "token" = None /\
  localStorage out.2 !! "admin" = None /\
  (forall key, key <> "token" -> key <> "admin" ->
     localStorage out.2 !! key = localStorage st !! key).
Proof.
  intros Hdata out.
  assert (Hstore : localStorage out.2 = delete "token" (delete "admin" (localStorage st))).
  { subst out. revert Hdata. unfold login. js_unfold. simpl.
    destruct answer as [|res]; simpl; [discriminate|].
    repeat case_match; simplify_eq/=; try discriminate;
      try match goal with
          | H : get ?a _ = Throw _, H' : get ?a _ = Normal _ |- _ =>
              destruct a; discriminate
          end.
    intros _.
    apply map_eq. intros key.
    destruct (decide (key = "token")) as [->|Ht]; [rewrite !lookup_delete_eq; reflexivity|].
    rewrite !(lookup_delete_ne _ "token") by congruence.
    destruct (decide (key = "admin")) as [->|Ha]; [rewrite !lookup_delete_eq; reflexivity|].
    rewrite !(lookup_delete_ne _ "admin") by congruence.
    rewrite !lookup_insert_ne by congruence. reflexivity. }
  split; [reflexivity|]. split; [exact Hstore|]. rewrite Hstore.
  split; [apply lookup_delete_eq|].
  split; [rewrite lookup_delete_ne by discriminate; apply lookup_delete_eq|].
  intros key Ht Ha. rewrite !lookup_delete_ne by congruence. reflexivity.
Qed.

Lemma login_then_logout_witness :
  let st := Page {[ "theme" := "dark" ]} ∅ [] in
  let data := JObj [("access_token", JStr "T"); ("admin", JObj [("name", JStr "Admin")])] in
  let res := Response 200 None (Some data) None in
  let out := logout (run (login (λ _, "{}") "admin@example.com" "correct")
                         (Responded res) st).2 in
  localStorage out.2 !! "token" = None /\
  localStorage out.2 !! "admin" = None /\
  localStorage out.2 !! "theme" = Some "dark".
Proof.
  intros st data res out.
  destruct (login_then_logout (λ _, "{}") st "admin@example.com" "correct"
              (Responded res) data)
    as (_ & _ & Htoken & Hadmin & Hother).
  - reflexivity.
  - split; [exact Htoken|]. split; [exact Hadmin|].
    subst out. rewrite (Hother "theme") by discriminate. vm_compute. reflexivity.
Defined.

(** ** The session guard *)

(** X4. After a login that stored the identity descriptor, the guard on
    a page with the name element requests no navigation and shows the
    stored text as it is: the serialized descriptor, not a field of it. *)
Theorem guard_shows_serialized_identity (JSON_stringify : json -> string)
    (st : page) (email password : string) (res : response)
    (props : list (string * json)) (T : string) (admin : json) :
  ok res = true ->
  parsed res = Some (JObj props) ->
  own_property "access_token" props = Some (JStr T) ->
  own_property "admin" props = Some admin ->
  JSON_stringify admin <> "" ->
  is_Some (elements st !! "admin-name") ->
  let after := (run (login JSON_stringify email password) (Responded res) st).2 in
  checkAuth after =
    (Normal tt,
     Page (localStorage after)
          (<["admin-name" := JSON_stringify admin]> (elements st))
          (trace after ++ [SetContent "admin-name" (JSON_stringify admin)])).
Proof.
  intros Hok Hparsed Htoken Hadmin Hshown [name Hname] after. subst after.
  apply String.eqb_neq in Hshown.
  unfold checkAuth, login. js_run.
  rewrite !lookup_insert_eq. simpl. rewrite Hshown. simpl. rewrite Hname. reflexivity.
Qed.

Lemma guard_shows_serialized_identity_witness :
  let st := Page ∅ {[ "admin-name" := "" ]} [] in
  let props := [("access_token", JStr "T"); ("admin", JObj [])] in
  let res := Response 200 None (Some (JObj props)) None in
  let after := (run (login (λ _, "{}") "admin@example.com" "correct") (Responded res) st).2 in
  elements (checkAuth after).2 !! "admin-name" = Some "{}".
Proof.
  intros st props res after. subst after.
  rewrite (guard_shows_serialized_identity (λ _, "{}") st "admin@example.com" "correct"
             res props "T" (JObj [])).
  - simpl. apply lookup_insert_eq.
  - reflexivity.
  - reflexivity.
  - reflexivity.
  - reflexivity.
  - discriminate.
  - exists "". vm_compute. reflexivity.
Defined.

(** X5. The guard always returns normally, never writes the store and
    never sends a request; it requests the navigation to the entry point
    exactly when the stored identity descriptor is absent or empty. *)
Theorem checkAuth_keeps_store (st : page) :
  (checkAuth st).1 = Normal tt /\
  localStorage (checkAuth st).2 = localStorage st /\
  exists events,
    trace (checkAuth st).2 = (trace st ++ events)%list /\
    Forall (λ e, is_fetch e = false) events /\
    (Navigate "index.html" ∈ events <-> truthy_item (localStorage st !! "admin") = false).
Proof.
  unfold checkAuth. js_unfold. simpl.
  destruct (truthy_item (localStorage st !! "admin")) eqn:Hadmin; simpl;
    destruct (elements st !! "admin-name") as [name|] eqn:Hname; simpl;
    (split; [reflexivity|]; split; [reflexivity|]).
  - eexists. split; [reflexivity|]. split; [repeat constructor|].
    split; [|discriminate]. intros [H|H]%elem_of_cons; [discriminate|].
    apply elem_of_nil in H. contradiction.
  - exists []. rewrite app_nil_r. split; [reflexivity|]. split; [constructor|].
    split; [|discriminate]. intros H. apply elem_of_nil in H. contradiction.
  - eexists. rewrite <- app_assoc. split; [reflexivity|]. split; [repeat constructor|].
    split; [reflexivity|]. intros _. find_event.
  - eexists. split; [reflexivity|]. split; [repeat constructor|].
    split; [reflexivity|]. intros _. find_event.
Qed.

(** ** Answers to the attendance load *)

(** X6. Unless the answer is a 401 response, an attendance load leaves
    the store as it was, whatever else it does. *)
Theorem load_keeps_store_unless_401 (st : page) (answer : fetched) :
  (forall res, answer = Responded res -> status res <> 401%nat) ->
  localStorage (run loadAttendance answer st).2 = localStorage st.
Proof.
  intros Hno. unfold loadAttendance.
  destruct (truthy_item (localStorage st !! "token")) eqn:Htoken; [|js_run; reflexivity].
  destruct answer as [|res].
  - js_run. repeat case_match; simplify_eq/=; reflexivity.
  - specialize (Hno res eq_refl). apply Nat.eqb_neq in Hno.
    destruct (status res =? 200)%nat eqn:H200; js_run;
      repeat case_match; simplify_eq/=; reflexivity.
Qed.

Lemma load_keeps_store_unless_401_witness :
  let st := Page {[ "token" := "T"; "admin" := "{}" ]} {[ "error-message" := "" ]} [] in
  let answer := Responded (Response 500 None None None) in
  localStorage (run loadAttendance answer st).2 !! "token" = Some "T".
Proof.
  intros st answer.
  rewrite (load_keeps_store_unless_401 st answer).
  - vm_compute. reflexivity.
  - intros res [= <-]. simpl. lia.
Defined.

(** X7. Only status 200 renders: with a token in the store and on a page
    that has the error region, any other status than 200 and 401, the
    other success statuses included, writes "Failed to load attendance
    data." and leaves the table and the store as they were. *)
Theorem load_renders_only_on_200 (st : page) (res : response) :
  truthy_item (localStorage st !! "token") = true ->
  is_Some (elements st !! "error-message") ->
  status res <> 200%nat ->
  status res <> 401%nat ->
  let after := run loadAttendance (Responded res) st in
  after =
    (Normal tt,
     Page (localStorage st)
          (<["error-message" := "Failed to load attendance data."]> (elements st))
          (trace st ++ [Fetch (attendance_request (default "" (localStorage st !! "token")));
                        SetContent "error-message" "Failed to load attendance data."])) /\
  elements after.2 !! "attendance-table" = elements st !! "attendance-table".
Proof.
  intros Htoken [message Hmessage] H200 H401 after. subst after.
  apply Nat.eqb_neq in H200, H401.
  unfold loadAttendance. js_run. rewrite <- app_assoc. split; [reflexivity|].
  apply lookup_insert_ne. discriminate.
Qed.

Lemma load_renders_only_on_200_witness :
  let st := Page {[ "token" := "T" ]}
                 {[ "error-message" := ""; "attendance-table" := "rows" ]} [] in
  let after := run loadAttendance (Responded (Response 204 None (Some (JArr [])) None)) st in
  elements after.2 !! "error-message" = Some "Failed to load attendance data." /\
  elements after.2 !! "attendance-table" = Some "rows".
Proof.
  intros st after. subst after.
  destruct (load_renders_only_on_200 st (Response 204 None (Some (JArr [])) None))
    as [Hrun Htable].
  - vm_compute. reflexivity.
  - exists "". vm_compute. reflexivity.
  - simpl. lia.
  - simpl. lia.
  - split; [|rewrite Htable; vm_compute; reflexivity].
    rewrite Hrun. simpl. apply lookup_insert_eq.
Defined.

(** X8. A 200 answer whose body is not JSON, is [null], or is an object
    whose [length] is not 0 is reported like a network failure: the error
    region reads "Server unreachable.", the error is logged, and the
    table and the store are left as they were. *)
Theorem load_malformed_body (st : page) (res : response) :
  truthy_item (localStorage st !! "token") = true ->
  is_Some (elements st !! "error-message") ->
  status res = 200%nat ->
  (parsed res = None \/ parsed res = Some JNull \/
   exists props, parsed res = Some (JObj props) /\
                 is_zero (own_property "length" props) = false) ->
  exists e,
    run loadAttendance (Responded res) st =
      (Normal tt,
       Page (localStorage st)
            (<["error-message" := "Server unreachable."]> (elements st))
            (trace st ++ [Fetch (attendance_request (default "" (localStorage st !! "token")));
                          ConsoleError "Attendance fetch error:" e;
                          SetContent "error-message" "Server unreachable."])).
Proof.
  intros Htoken [message Hmessage] Hstatus [Hbody | [Hbody | (props & Hbody & Hlen)]];
    unfold loadAttendance; js_run; rewrite <- !app_assoc; eexists; reflexivity.
Qed.

Lemma load_malformed_body_witness :
  let st := Page {[ "token" := "T" ]} {[ "error-message" := "" ]} [] in
  let res := Response 200 None (Some (JObj [("detail", JStr "Not found")])) None in
  elements (run loadAttendance (Responded res) st).2 !! "error-message"
    = Some "Server unreachable.".
Proof.
  intros st res.
  destruct (load_malformed_body st res) as [e Hrun].
  - vm_compute. reflexivity.
  - exists "". vm_compute. reflexivity.
  - reflexivity.
  - right. right. exists [("detail", JStr "Not found")]. split; reflexivity.
  - rewrite Hrun. simpl. apply lookup_insert_eq.
Defined.

Lemma forEach_rows_null (items : list json) (index : nat) (html : string) :
  JNull ∈ items -> exists e, forEach_rows items index html = Throw e.
Proof.
  revert index html. induction items as [|record rest IH]; intros index html Hin.
  - apply elem_of_nil in Hin. contradiction.
  - apply elem_of_cons in Hin as [<- | Hin].
    + exists TypeError. reflexivity.
    + cbn [forEach_rows]. destruct (row_html record index) as [row|e].
      * apply (IH (S index) (html +:+ row) Hin).
      * exists e. reflexivity.
Qed.

(** X9. Rendering is all or nothing: when one record of a 200 answer is
    [null], no row is written at all; the table is left as it was and
    the error region reads "Server unreachable.". *)
Theorem load_null_record_aborts (st : page) (res : response) (records : list json) :
  truthy_item (localStorage st !! "token") = true ->
  is_Some (elements st !! "error-message") ->
  status res = 200%nat ->
  parsed res = Some (JArr records) ->
  JNull ∈ records ->
  exists e,
    run loadAttendance (Responded res) st =
      (Normal tt,
       Page (localStorage st)
            (<["error-message" := "Server unreachable."]> (elements st))
            (trace st ++ [Fetch (attendance_request (default "" (localStorage st !! "token")));
                          ConsoleError "Attendance fetch error:" e;
                          SetContent "error-message" "Server unreachable."])).
Proof.
  intros Htoken [message Hmessage] Hstatus Hparsed Hnull.
  destruct (forEach_rows_null records 0 "" Hnull) as [e Hrows].
  assert (Hzero : (length records =? 0)%nat = false).
  { destruct records; [apply elem_of_nil in Hnull; contradiction | reflexivity]. }
  exists e. unfold loadAttendance. js_run. rewrite <- !app_assoc. reflexivity.
Qed.

Lemma load_null_record_aborts_witness :
  let st := Page {[ "token" := "T" ]}
                 {[ "error-message" := ""; "attendance-table" := "rows" ]} [] in
  let records := [JObj [("name", JStr "A")]; JNull] in
  let after := run loadAttendance (Responded (Response 200 None (Some (JArr records)) None)) st in
  elements after.2 !! "attendance-table" = Some "rows" /\
  elements after.2 !! "error-message" = Some "Server unreachable.".
Proof.
  intros st records after. subst after.
  destruct (load_null_record_aborts st (Response 200 None (Some (JArr records)) None) records)
    as [e Hrun].
  - vm_compute. reflexivity.
  - exists "". vm_compute. reflexivity.
  - reflexivity.
  - reflexivity.
  - find_event.
  - rewrite Hrun. simpl. split.
    + rewrite lookup_insert_ne by discriminate. vm_compute. reflexivity.
    + apply lookup_insert_eq.
Defined.

(** X10. A successful reload does not clear an earlier error: after a
    load that got no response, a load answered with records renders the
    table and leaves "Server unreachable." in the error region. *)
Theorem stale_error_survives_reload (st : page) (res : response) (records : list json) :
  truthy_item (localStorage st !! "token") = true ->
  is_Some (elements st !! "attendance-table") ->
  is_Some (elements st !! "error-message") ->
  status res = 200%nat ->
  parsed res = Some (JArr records) ->
  Forall (λ record, is_record record = true) records ->
  let failed := (run loadAttendance Unreachable st).2 in
  let reloaded := run loadAttendance (Responded res) failed in
  reloaded.1 = Normal tt /\
  elements reloaded.2 !! "attendance-table" = Some (rendered records) /\
  elements reloaded.2 !! "error-message" = Some "Server unreachable.".
Proof.
  intros Htoken Htable Herror Hstatus Hparsed Hrecords failed reloaded.
  subst reloaded failed. rewrite (load_unreachable_page st Htoken Herror). simpl.
  rewrite (load_records_page _ res records); simpl; try assumption.
  - split; [reflexivity|]. split; [apply lookup_insert_eq|].
    rewrite lookup_insert_ne by discriminate. apply lookup_insert_eq.
  - rewrite lookup_insert_ne by discriminate. exact Htable.
Qed.

Lemma stale_error_survives_reload_witness :
  let st := Page {[ "token" := "T" ]}
                 {[ "error-message" := ""; "attendance-table" := "" ]} [] in
  let records := [JObj [("name", JStr "A"); ("time", JNum (Numeral false "1700000000"))]] in
  let res := Response 200 None (Some (JArr records)) None in
  let failed := (run loadAttendance Unreachable st).2 in
  let reloaded := run loadAttendance (Responded res) failed in
  elements reloaded.2 !! "attendance-table" = Some (rendered records) /\
  elements reloaded.2 !! "error-message" = Some "Server unreachable.".
Proof.
  intros st records res failed reloaded.
  destruct (stale_error_survives_reload st res records) as (_ & Htable & Herror).
  - vm_compute. reflexivity.
  - exists "". vm_compute. reflexivity.
  - exists "". vm_compute. reflexivity.
  - reflexivity.
  - reflexivity.
  - repeat constructor.
  - split; [exact Htable | exact Herror].
Defined.

(** X11. After a 401 the session is over: a further attendance load
    only redirects, an export only prompts for a login, neither sends a
    request whatever the network would answer, and the guard requests
    the navigation to the entry point. *)
Theorem logged_out_after_401 (st : page) (res : response) (answer : fetched) :
  truthy_item (localStorage st !! "token") = true ->
  is_Some (elements st !! "error-message") ->
  status res = 401%nat ->
  let after := (run loadAttendance (Responded res) st).2 in
  run loadAttendance answer after =
    (Normal tt, Page (localStorage after) (elements after)
                     (trace after ++ [Navigate "index.html"])) /\
  run downloadReport answer after =
    (Normal tt, Page (localStorage after) (elements after)
                     (trace after ++ [Alert "Please log in first."])) /\
  exists events,
    trace (checkAuth after).2 = (trace after ++ events)%list /\
    Navigate "index.html" ∈ events.
Proof.
  intros Htoken Herror Hstatus after. subst after.
  rewrite (load_unauthorized_page st res Htoken Herror Hstatus). cbn [snd].
  match goal with |- context [run loadAttendance answer ?p] => set (out := p) end.
  assert (Hout : truthy_item (localStorage out !! "token") = false).
  { subst out. simpl. rewrite lookup_delete_eq. reflexivity. }
  assert (Hadmin : localStorage out !! "admin" = None).
  { subst out. simpl. rewrite lookup_delete_ne by discriminate. apply lookup_delete_eq. }
  clearbody out.
  split; [exact (load_logged_out out answer Hout)|].
  split; [exact (export_logged_out out answer Hout)|].
  unfold checkAuth. js_unfold. simpl. rewrite Hadmin. simpl.
  destruct (elements out !! "admin-name") as [name|]; simpl.
  - eexists. split; [symmetry; apply (app_assoc _ [Navigate "index.html"] [_])|].
    find_event.
  - exists [Navigate "index.html"]. split; [reflexivity | find_event].
Qed.

Lemma logged_out_after_401_witness :
  let st := Page {[ "token" := "T"; "admin" := "{}" ]} {[ "error-message" := "" ]} [] in
  let after := (run loadAttendance (Responded (Response 401 None None None)) st).2 in
  trace (run loadAttendance Unreachable after).2 = (trace after ++ [Navigate "index.html"])%list.
Proof.
  intros st after.
  destruct (logged_out_after_401 st (Response 401 None None None) Unreachable)
    as (Hload & _).
  - vm_compute. reflexivity.
  - exists "". vm_compute. reflexivity.
  - reflexivity.
  - subst after. rewrite Hload. reflexivity.
Defined.

(** ** The export *)

(** X12. Whatever the store holds and the network answers, an export
    returns normally and changes neither the store nor the elements of
    the page; in particular a 401 answer to an export does not end the
    session. *)
Theorem export_keeps_session (st : page) (answer : fetched) :
  (run downloadReport answer st).1 = Normal tt /\
  localStorage (run downloadReport answer st).2 = localStorage st /\
  elements (run downloadReport answer st).2 = elements st.
Proof.
  unfold downloadReport.
  destruct (truthy_item (localStorage st !! "token")) eqn:Htoken;
    [|js_run; repeat split].
  destruct answer as [|res]; [js_run; repeat split|].
  destruct (status res =? 200)%nat eqn:H200; js_run; [|repeat split].
  destruct (blob res) as [content|]; simpl; repeat split.
Qed.

(** X13. With a token in the store, an export answered with status 200
    and a readable body sends one request carrying the stored token and
    saves the body under the name "attendance_report.csv". *)
Theorem export_saves_report (st : page) (res : response) (content : string) :
  truthy_item (localStorage st !! "token") = true ->
  status res = 200%nat ->
  blob res = Some content ->
  run downloadReport (Responded res) st =
    (Normal tt,
     Page (localStorage st) (elements st)
          (trace st ++ [Fetch (attendance_request (default "" (localStorage st !! "token")));
                        Download "attendance_report.csv" content])).
Proof.
  intros Htoken Hstatus Hblob. unfold downloadReport. js_run.
  rewrite <- app_assoc. reflexivity.
Qed.

Lemma export_saves_report_witness :
  let st := Page {[ "token" := "T" ]} ∅ [] in
  let res := Response 200 None None (Some "name,time,status") in
  trace (run downloadReport (Responded res) st).2 =
    [Fetch (attendance_request "T"); Download "attendance_report.csv" "name,time,status"].
Proof.
  intros st res.
  rewrite (export_saves_report st res "name,time,status").
  - reflexivity.
  - vm_compute. reflexivity.
  - reflexivity.
  - reflexivity.
Defined.

(** ** The listener *)

(** X14. On a page whose body carries neither the dashboard nor the
    attendance class, the entry page for one, the listener does nothing:
    no redirect, no request, no write, and no load left pending. *)
Theorem listener_idle_elsewhere (classList : list string) (st : page) :
  "dashboard-page" ∉ classList ->
  "attendance-page" ∉ classList ->
  onDOMContentLoaded classList st = (Normal (Settled tt, Settled tt), st).
Proof.
  intros Hdash Hatt. unfold onDOMContentLoaded.
  rewrite !bool_decide_eq_false_2 by assumption. reflexivity.
Qed.

Lemma listener_idle_elsewhere_witness :
  let st := Page ∅ {[ "username" := "" ]} [] in
  onDOMContentLoaded ["login-page"] st = (Normal (Settled tt, Settled tt), st).
Proof.
  intros st. apply listener_idle_elsewhere.
  - intros [H|H]%elem_of_cons; [discriminate | apply elem_of_nil in H; exact H].
  - intros [H|H]%elem_of_cons; [discriminate | apply elem_of_nil in H; exact H].
Defined.

(** X15. On a protected page opened without a token, whatever identity
    descriptor is stored, the listener sends no request, leaves no load
    pending, leaves the store as it was and requests the navigation to
    the entry point. *)
Theorem listener_logged_out (classList : list string) (st : page) :
  truthy_item (localStorage st !! "token") = false ->
  "dashboard-page" ∈ classList \/ "attendance-page" ∈ classList ->
  let after := onDOMContentLoaded classList st in
  after.1 = Normal (Settled tt, Settled tt) /\
  localStorage after.2 = localStorage st /\
  exists events,
    trace after.2 = (trace st ++ events)%list /\
    Forall (λ e, is_fetch e = false) events /\
    Navigate "index.html" ∈ events.
Proof.
  intros Htoken Hclass after. subst after.
  unfold onDOMContentLoaded.
  destruct (bool_decide ("dashboard-page" ∈ classList)) eqn:Hdash;
    destruct (bool_decide ("attendance-page" ∈ classList)) eqn:Hatt;
    [ | | | apply bool_decide_eq_false_1 in Hdash, Hatt; tauto ];
    unfold checkAuth, loadAttendance; js_unfold; simpl;
    destruct (truthy_item (localStorage st !! "admin")) eqn:Hadmin; simpl;
    destruct (elements st !! "admin-name") as [name|] eqn:Hname; simpl;
    repeat (progress (rewrite ?Htoken, ?Hadmin, ?Hname, ?lookup_insert_eq; simpl));
    (split; [reflexivity|]); (split; [reflexivity|]);
    rewrite <- ?app_assoc; (eexists; split; [reflexivity|]);
    (split; [repeat constructor | find_event]).
Qed.

Lemma listener_logged_out_witness :
  let st := Page {[ "admin" := "{}" ]} {[ "admin-name" := "" ]} [] in
  let after := onDOMContentLoaded ["attendance-page"] st in
  after.1 = Normal (Settled tt, Settled tt) /\
  localStorage after.2 = localStorage st /\
  exists events,
    trace after.2 = (trace st ++ events)%list /\
    Forall (λ e, is_fetch e = false) events.
Proof.
  intros st after.
  destruct (listener_logged_out ["attendance-page"] st)
    as (Hsettled & Hstore & events & Htrace & Hquiet & _).
  - vm_compute. reflexivity.
  - right. find_event.
  - split; [exact Hsettled|]. split; [exact Hstore|].
    exists events. split; [exact Htrace | exact Hquiet].
Defined.

(** ** The row filter *)

Lemma contains_trans (a b c : string) : contains a b -> contains b c -> contains a c.
Proof.
  intros (p1 & s1 & ->) (p2 & s2 & ->). exists (p1 +:+ p2), (s2 +:+ s1).
  rewrite !append_assoc. reflexivity.
Qed.

Lemma shown_includes (b : bool) : (if b then "" else "none") = "" <-> b = true.
Proof. destruct b; split; (reflexivity || discriminate). Qed.

(** X16. A longer query narrows the selection: when the lower-cased
    form of the query [q1] occurs in the lower-cased form of the query
    [q2], every row the filter shows for [q2] it also shows for [q1],
    whatever function the lower-casing is. *)
Theorem filter_narrows (toLowerCase : string -> string)
    (st1 st2 : page) (q1 q2 : string) (rows : list tr) :
  elements st1 !! "filter-input" = Some q1 ->
  elements st2 !! "filter-input" = Some q2 ->
  contains (toLowerCase q2) (toLowerCase q1) ->
  exists wide narrow,
    (filterAttendance toLowerCase rows st1).1 = Normal wide /\
    (filterAttendance toLowerCase rows st2).1 = Normal narrow /\
    forall i row, narrow !! i = Some row -> display row = "" ->
      exists row', wide !! i = Some row' /\ cells row' = cells row /\ display row' = "".
Proof.
  intros H1 H2 Hq. unfold filterAttendance. js_run.
  eexists. eexists. split; [reflexivity|]. split; [reflexivity|].
  intros i row. rewrite !list_lookup_fmap.
  destruct (rows !! i) as [r|]; [|discriminate]. simpl.
  intros [= <-]. simpl. intros Hshown%shown_includes%includes_spec.
  eexists. split; [reflexivity|]. simpl. split; [reflexivity|].
  apply shown_includes, includes_spec.
  eapply contains_trans; [exact Hshown | exact Hq].
Qed.

Lemma filter_narrows_witness :
  let rows := [Row ["1"; "Alice"; "09:41"; "present"] "";
               Row ["2"; "Alina"; "09:43"; "present"] ""] in
  exists wide narrow,
    (filterAttendance toLowerCase_ascii rows
       (Page ∅ {[ "filter-input" := "Ali" ]} [])).1 = Normal wide /\
    (filterAttendance toLowerCase_ascii rows
       (Page ∅ {[ "filter-input" := "ALIC" ]} [])).1 = Normal narrow /\
    forall i row, narrow !! i = Some row -> display row = "" ->
      exists row', wide !! i = Some row' /\ cells row' = cells row /\ display row' = "".
Proof.
  intros rows.
  apply (filter_narrows toLowerCase_ascii
           (Page ∅ {[ "filter-input" := "Ali" ]} [])
           (Page ∅ {[ "filter-input" := "ALIC" ]} []) "Ali" "ALIC" rows).
  - vm_compute. reflexivity.
  - vm_compute. reflexivity.
  - exists "", "c". reflexivity.
Defined.

(** X17. The filter looks at the cells only: two row lists with the
    same cells are filtered alike whatever was shown or hidden before,
    and filtering the filtered rows again with the same query changes
    nothing. *)
Theorem filter_depends_on_cells (toLowerCase : string -> string)
    (st : page) (rows rows' : list tr) :
  (map cells rows = map cells rows' ->
   filterAttendance toLowerCase rows st = filterAttendance toLowerCase rows' st) /\
  (forall out, (filterAttendance toLowerCase rows st).1 = Normal out ->
     filterAttendance toLowerCase out st = filterAttendance toLowerCase rows st).
Proof.
  assert (Hcells : forall a b : list tr, map cells a = map cells b ->
                   filterAttendance toLowerCase a st = filterAttendance toLowerCase b st).
  { intros a b Hab. unfold filterAttendance.
    destruct (elements st !! "filter-input") as [q|] eqn:Hq; js_run; [|reflexivity].
    do 2 f_equal. revert b Hab. induction a as [|x a IH]; intros [|y b]; simpl;
      try discriminate; [reflexivity|].
    intros [= Hxy Hab]. rewrite Hxy, (IH b Hab). reflexivity. }
  split; [apply Hcells|].
  intros out Hout. apply Hcells. revert Hout.
  unfold filterAttendance.
  destruct (elements st !! "filter-input") as [q|] eqn:Hq; js_run; [|discriminate].
  intros [= <-]. rewrite map_map. reflexivity.
Qed.

(** X18. Only the lower-cased form of the query matters: two queries
    that lower-case to the same text select the same rows, whatever
    function the lower-casing is. *)
Theorem filter_ignores_query_case (toLowerCase : string -> string)
    (st1 st2 : page) (q1 q2 : string) (rows : list tr) :
  elements st1 !! "filter-input" = Some q1 ->
  elements st2 !! "filter-input" = Some q2 ->
  toLowerCase q1 = toLowerCase q2 ->
  (filterAttendance toLowerCase rows st1).1 = (filterAttendance toLowerCase rows st2).1.
Proof.
  intros H1 H2 Hq. unfold filterAttendance. js_run. reflexivity.
Qed.

Lemma filter_ignores_query_case_witness :
  let rows := [Row ["1"; "Alice"; "09:41"; "present"] "";
               Row ["2"; "Bob"; "09:43"; "present"] ""] in
  (filterAttendance toLowerCase_ascii rows (Page ∅ {[ "filter-input" := "BoB" ]} [])).1
  = (filterAttendance toLowerCase_ascii rows (Page ∅ {[ "filter-input" := "bOb" ]} [])).1.
Proof.
  intros rows.
  apply (filter_ignores_query_case toLowerCase_ascii
           (Page ∅ {[ "filter-input" := "BoB" ]} [])
           (Page ∅ {[ "filter-input" := "bOb" ]} []) "BoB" "bOb" rows).
  - vm_compute. reflexivity.
  - vm_compute. reflexivity.
  - reflexivity.
Defined.

(** ** Cells of a row *)

Lemma own_property_without (key k : string) (props : list (string * json)) :
  own_property k (without key props)
  = if String.eqb k key then None else own_property k props.
Proof.
  induction props as [|[k' v] props IH]; simpl; [destruct (String.eqb k key); reflexivity|].
  destruct (String.eqb k' key) eqn:Hk'; simpl.
  - rewrite IH. destruct (String.eqb k key) eqn:Hk; [reflexivity|].
    destruct (String.eqb k' k) eqn:Hkk; [|reflexivity].
    apply String.eqb_eq in Hk', Hkk. subst. rewrite String.eqb_refl in Hk. discriminate.
  - destruct (String.eqb k' k) eqn:Hkk.
    + apply String.eqb_eq in Hkk. subst. rewrite Hk'. reflexivity.
    + exact IH.
Qed.

Lemma weakens_without (key k : string) (props : list (string * json)) :
  truthy (own_property key props) = false ->
  weakens (own_property k props) (own_property k (without key props)).
Proof.
  intros Hkey. rewrite own_property_without. destruct (String.eqb k key) eqn:Hk.
  - apply String.eqb_eq in Hk. subst. right. split; [exact Hkey | reflexivity].
  - left. reflexivity.
Qed.

Lemma or_else_weakens (a a' b b' : value) :
  weakens a a' -> weakens b b' -> weakens (or_else a b) (or_else a' b').
Proof.
  unfold or_else. intros [-> | [Ha ->]] Hb.
  - destruct (truthy a); [left; reflexivity | exact Hb].
  - rewrite Ha. exact Hb.
Qed.

Lemma or_else_default (x x' : value) (d : json) :
  weakens x x' -> or_else x (Some d) = or_else x' (Some d).
Proof.
  unfold or_else. intros [-> | [Hx ->]]; [reflexivity|]. rewrite Hx. reflexivity.
Qed.

(** X19. A property that is present but counts as false (the empty
    string, 0, [false], [null]) is treated like an absent one: the row
    of the record is the row of the record without that property. *)
Theorem falsy_property_as_absent (key : string) (props : list (string * json))
    (index : nat) :
  truthy (own_property key props) = false ->
  row_html (JObj props) index = row_html (JObj (without key props)) index.
Proof.
  intros Hkey. unfold row_html, get, mbind, completion_bind.
  pose proof (weakens_without key) as W.
  rewrite (or_else_default _ _ _
             (or_else_weakens _ _ _ _ (W "name" props Hkey) (W "user" props Hkey))).
  rewrite (or_else_default _ _ _
             (or_else_weakens _ _ _ _ (W "time" props Hkey) (W "timestamp" props Hkey))).
  rewrite (or_else_default _ _ _ (W "status" props Hkey)).
  reflexivity.
Qed.

Lemma falsy_property_as_absent_witness :
  row_html (JObj [("name", JStr ""); ("user", JStr "B"); ("time", JNum (Numeral true "0"))]) 0
  = row_html (JObj [("user", JStr "B"); ("time", JNum (Numeral true "0"))]) 0.
Proof.
  apply (falsy_property_as_absent "name"
           [("name", JStr ""); ("user", JStr "B"); ("time", JNum (Numeral true "0"))] 0).
  reflexivity.
Defined.

(** X20. The text of a cell goes into the markup as it is, without any
    escaping: the row of a record whose [name] is the non-empty string
    [s] contains [s] between the tags of a cell, whatever characters [s]
    holds. *)
Theorem interpolation_is_verbatim (props : list (string * json)) (s : string)
    (index : nat) :
  is_record (JObj props) = true ->
  own_property "name" props = Some (JStr s) ->
  s <> "" ->
  exists pre post,
    row_html (JObj props) index = Normal (pre +:+ "<td>" +:+ s +:+ "</td>" +:+ post).
Proof.
  intros Hrecord Hname Hs.
  rewrite (row_html_view (JObj props) index Hrecord).
  unfold markup, view. cbn [number identity moment label properties].
  rewrite (resolve_first "name" ["user"] "—" props s Hname Hs).
  exists (LF +:+ "          <tr>" +:+
          LF +:+ "            <td>" +:+ pretty (index + 1)%nat +:+ "</td>" +:+
          LF +:+ "            ").
  eexists. rewrite !append_assoc. reflexivity.
Qed.

Lemma interpolation_is_verbatim_witness :
  exists pre post,
    row_html (JObj [("name", JStr "<b>A</b>")]) 0
    = Normal (pre +:+ "<td>" +:+ "<b>A</b>" +:+ "</td>" +:+ post).
Proof.
  apply (interpolation_is_verbatim [("name", JStr "<b>A</b>")] "<b>A</b>" 0).
  - reflexivity.
  - reflexivity.
  - discriminate.
Defined.
